(** * A shallow embedding of the named-instance registry

    The registry is the class [Registry] together with the module-level
    constant [registryInstance] and its accessor [getRegistry].  The
    embedding follows the TypeScript source: the private field [#entries] is
    a JavaScript [Map] (insertion ordered, keyed by strings), each method is
    a function from the receiver's state to the receiver's new state and a
    completion (a returned value or a thrown error), and objects that callers
    hold by reference live in a heap of locations. *)

From stdpp Require Import base strings list gmap.
From Stdlib Require Import ZArith.

Local Open Scope string_scope.

(** ** JavaScript values *)

(** Object identities. *)
Definition loc := nat.

(** The function object found under an instance's [constructor] property,
    viewed as the source's cast views it: [{ name?: string }]. *)
Record Constructor := {
  ctor_ref : loc;
  ctor_name : option string;
}.

(** The built-in constructors the registry can meet: [Object] is named by
    [register] itself, the other three are what property access on a
    primitive boolean, number or string reaches through its wrapper. *)
Definition Object : Constructor :=
  {| ctor_ref := 0; ctor_name := Some "Object" |}.
Definition BooleanConstructor : Constructor :=
  {| ctor_ref := 1; ctor_name := Some "Boolean" |}.
Definition NumberConstructor : Constructor :=
  {| ctor_ref := 2; ctor_name := Some "Number" |}.
Definition StringConstructor : Constructor :=
  {| ctor_ref := 3; ctor_name := Some "String" |}.

(** Classes of the caller's, as in the test suite: a declared class, and a
    class expression without a name, whose [name] is the empty string. *)
Definition TestClass : Constructor :=
  {| ctor_ref := 100; ctor_name := Some "TestClass" |}.

Definition AnonymousClass : Constructor :=
  {| ctor_ref := 101; ctor_name := Some "" |}.

(** A value that can be passed as [instance].  An object is its identity
    [ref] together with what the lookup of its [constructor] property
    yields: [None] when the property is [undefined] (for example an object
    made by [Object.create(null)]).  The property is taken to be an ordinary
    data property, own or inherited.  An object whose [constructor] is an
    accessor, or that sits behind a proxy, runs code of the caller's while
    [register] reads it, and that code can throw or call the registry
    again; such instances are not values of this type, and what is proved
    of a [register] call below is proved of calls on the values of this
    type.  Numbers are the integers; [NaN], the one value that is not [===]
    to itself, is not covered either. *)
Inductive JsValue : Type :=
  | JsUndefined
  | JsNull
  | JsBoolean (b : bool)
  | JsNumber (z : Z)
  | JsString (s : string)
  | JsObject (ref : loc) (ctor : option Constructor).

(** [a === b]: objects are compared by identity, primitives by value. *)
Definition strict_equals (a b : JsValue) : bool :=
  match a, b with
  | JsUndefined, JsUndefined => true
  | JsNull, JsNull => true
  | JsBoolean x, JsBoolean y => Bool.eqb x y
  | JsNumber x, JsNumber y => Z.eqb x y
  | JsString x, JsString y => String.eqb x y
  | JsObject r _, JsObject r' _ => Nat.eqb r r'
  | _, _ => false
  end.

(** Errors the code can throw.  [Error] carries the message given to
    [new Error(...)]; [TypeError] is the engine's error on a property
    access on [null] or [undefined] (its message is engine specific). *)
Inductive JsError : Type :=
  | Error (message : string)
  | TypeError.

(** How a call ends. *)
Inductive Completion (A : Type) : Type :=
  | Return (a : A)
  | Throw (e : JsError).
Arguments Return {A} a.
Arguments Throw {A} e.

(** [v.constructor]: throws on [null] and [undefined], reaches the wrapper's
    constructor on the other primitives. *)
Definition get_constructor (v : JsValue) : Completion (option Constructor) :=
  match v with
  | JsUndefined | JsNull => Throw TypeError
  | JsBoolean _ => Return (Some BooleanConstructor)
  | JsNumber _ => Return (Some NumberConstructor)
  | JsString _ => Return (Some StringConstructor)
  | JsObject _ c => Return c
  end.

(** [a || b] where [a] is a string or [undefined]: [undefined] and the empty
    string are the falsy cases. *)
Definition or_string (a : option string) (b : string) : string :=
  match a with
  | Some s => if String.eqb s "" then b else s
  | None => b
  end.

(** ** The JavaScript [Map], keyed by strings

    Entries are kept in insertion order; [set] on a key already present
    replaces the value where it stands, [set] on a new key appends. *)
Module JsMap.
Section Ops.
Context {V : Type}.

Definition t := list (string * V).

Definition empty : t := [].

Fixpoint get (m : t) (k : string) : option V :=
  match m with
  | [] => None
  | (k', v) :: m' => if String.eqb k' k then Some v else get m' k
  end.

Fixpoint has (m : t) (k : string) : bool :=
  match m with
  | [] => false
  | (k', _) :: m' => if String.eqb k' k then true else has m' k
  end.

Fixpoint set (m : t) (k : string) (v : V) : t :=
  match m with
  | [] => [(k, v)]
  | (k', v') :: m' =>
      if String.eqb k' k then (k, v) :: m' else (k', v') :: set m' k v
  end.

Definition clear (m : t) : t := [].

Definition keys (m : t) : list string := fst <$> m.

Definition values (m : t) : list V := snd <$> m.
End Ops.
Arguments t V : clear implicits.
End JsMap.

(** ** The class [Registry] *)

Record RegistryEntry := {
  name : string;
  instance : JsValue;
  type : string;
  constructor : Constructor;
}.

(** The state of a [Registry] object: its private field [#entries]. *)
Record Registry := {
  entries : JsMap.t RegistryEntry;
}.

(** [new Registry()]. *)
Definition new_Registry : Registry := {| entries := JsMap.empty |}.

(** A method takes the receiver's state and gives the state it leaves
    behind together with the call's completion. *)
Definition Method (A : Type) : Type := Registry → Registry * Completion A.

Definition already_registered (name : string) : string :=
  "Instance '" ++ name ++ "' already registered".

Definition not_found (name : string) : string :=
  "Instance '" ++ name ++ "' not found".

(** The specification's two error kinds, as the errors the code throws. *)
Definition DuplicateNameError (name : string) : JsError :=
  Error (already_registered name).
Definition NotFoundError (name : string) : JsError :=
  Error (not_found name).

Definition register (name : string) (instance : JsValue)
    (type : option string) : Method unit := λ this,
  if JsMap.has (entries this) name then
    (this, Throw (Error (already_registered name)))
  else
    match get_constructor instance with
    | Throw e => (this, Throw e)
    | Return instanceObj_constructor =>
        let constructorName :=
          or_string (instanceObj_constructor ≫= ctor_name) "Unknown" in
        let entry :=
          {| name := name;
             instance := instance;
             type := or_string type constructorName;
             constructor := default Object instanceObj_constructor |} in
        ({| entries := JsMap.set (entries this) name entry |}, Return ())
    end.

(** The object literal of [register], as a function of the call's arguments
    and of the constructor read from the instance. *)
Definition entry_of (n : string) (x : JsValue) (t : option string)
    (c : option Constructor) : RegistryEntry :=
  {| name := n;
     instance := x;
     type := or_string t (or_string (c ≫= ctor_name) "Unknown");
     constructor := default Object c |}.

Definition get (name : string) : Method JsValue := λ this,
  match JsMap.get (entries this) name with
  | None => (this, Throw (Error (not_found name)))
  | Some entry => (this, Return (instance entry))
  end.

Definition getEntry (name : string) : Method (option RegistryEntry) := λ this,
  (this, Return (JsMap.get (entries this) name)).

Definition has (name : string) : Method bool := λ this,
  (this, Return (JsMap.has (entries this) name)).

Definition list_ : Method (list (string * string)) := λ this,
  (this, Return ((λ entry, (name entry, type entry))
                   <$> JsMap.values (entries this))).

Definition clear : Method unit := λ this,
  ({| entries := JsMap.clear (entries this) |}, Return ()).

(** ** Sequences of calls on one registry *)

Inductive Call : Type :=
  | CallRegister (name : string) (instance : JsValue) (type : option string)
  | CallGet (name : string)
  | CallGetEntry (name : string)
  | CallHas (name : string)
  | CallList
  | CallClear.

(** The receiver's state after a call, whether it returned or threw. *)
Definition after (c : Call) (this : Registry) : Registry :=
  match c with
  | CallRegister n x t => (register n x t this).1
  | CallGet n => (get n this).1
  | CallGetEntry n => (getEntry n this).1
  | CallHas n => (has n this).1
  | CallList => (list_ this).1
  | CallClear => (clear this).1
  end.

Definition run (cs : list Call) (this : Registry) : Registry :=
  foldl (λ s c, after c s) this cs.

Definition is_clear (c : Call) : bool :=
  match c with CallClear => true | _ => false end.

(** The states a registry can be in: those that calls lead to from
    [new Registry()]. *)
Inductive reachable : Registry → Prop :=
  | reachable_new : reachable new_Registry
  | reachable_call c this : reachable this → reachable (after c this).

(** The names currently registered, as a set. *)
Definition registered (this : Registry) : gset string :=
  list_to_set (JsMap.keys (entries this)).

(** What holds of [#entries] in every reachable state: no key occurs twice
    and every entry is stored under its own name. *)
Definition entries_ok (m : JsMap.t RegistryEntry) : Prop :=
  NoDup (JsMap.keys m) ∧ Forall (λ kv, name kv.2 = kv.1) m.

(** ** The module: [registryInstance] and [getRegistry]

    Callers hold registries by reference, so the process keeps the
    [Registry] objects in a heap.  Loading the module evaluates
    [const registryInstance = new Registry()] once; the binding is a
    constant of the module. *)
Record Process := {
  heap : gmap loc Registry;
  registryInstance : loc;
}.

(** Evaluating [new Registry()]: a fresh object in the heap. *)
Definition alloc_Registry (h : gmap loc Registry) : loc * gmap loc Registry :=
  let l := fresh (dom h) in (l, <[l := new_Registry]> h).

Definition module_load : Process :=
  let '(l, h) := alloc_Registry ∅ in
  {| heap := h; registryInstance := l |}.

Definition getRegistry (p : Process) : loc := registryInstance p.

(** Calling a method through a reference: the object the reference points
    to is updated in place.  [None] stands for a reference to nothing,
    which no caller can hold. *)
Definition invoke {A} (r : loc) (m : Method A) (p : Process)
    : option (Process * Completion A) :=
  this ← heap p !! r;
  let '(this', res) := m this in
  Some ({| heap := <[r := this']> (heap p);
           registryInstance := registryInstance p |}, res).

(** What client code can do with the module's exports. *)
Inductive Action : Type :=
  | ActNew
  | ActGetRegistry
  | ActCall (r : loc) (c : Call).

Definition act (a : Action) (p : Process) : Process :=
  match a with
  | ActNew =>
      {| heap := (alloc_Registry (heap p)).2;
         registryInstance := registryInstance p |}
  | ActGetRegistry => p
  | ActCall r c =>
      match heap p !! r with
      | Some this =>
          {| heap := <[r := after c this]> (heap p);
             registryInstance := registryInstance p |}
      | None => p
      end
  end.

Definition perform (acts : list Action) (p : Process) : Process :=
  foldl (λ q a, act a q) p acts.

(** A value on which a property access throws. *)
Definition nullish (x : JsValue) : bool :=
  match x with
  | JsUndefined | JsNull => true
  | _ => false
  end.

(** What [register] makes sure of before it stores an entry under [k]. *)
Definition entry_built (k : string) (e : RegistryEntry) : Prop :=
  name e = k
  ∧ type e ≠ ""
  ∧ nullish (instance e) = false
  ∧ ∃ c, get_constructor (instance e) = Return c
         ∧ constructor e = default Object c.

(** * Properties *)

(** ** The [Map] operations *)

Section JsMapFacts.
Context {V : Type}.
Implicit Types (m : JsMap.t V) (k : string) (v : V).

Lemma JsMap_has_get m k :
  JsMap.has m k = true ↔ is_Some (JsMap.get m k).
Proof.
  induction m as [|[k' v'] m IH]; simpl.
  - split; [discriminate | intros [? ?]; discriminate].
  - destruct (String.eqb k' k); [split; eauto | exact IH].
Qed.

Lemma JsMap_has_false_get m k :
  JsMap.has m k = false ↔ JsMap.get m k = None.
Proof.
  rewrite <- Bool.not_true_iff_false, JsMap_has_get.
  rewrite eq_None_not_Some. reflexivity.
Qed.

Lemma JsMap_has_keys m k :
  JsMap.has m k = true ↔ k ∈ JsMap.keys m.
Proof.
  unfold JsMap.keys.
  induction m as [|[k' v'] m IH]; simpl.
  - rewrite elem_of_nil. split; [discriminate | tauto].
  - rewrite elem_of_cons.
    destruct (String.eqb_spec k' k) as [->|Hne].
    + split; auto.
    + rewrite IH. split; [auto | intros [->|?]; [congruence | assumption]].
Qed.

Lemma JsMap_set_fresh m k v :
  JsMap.has m k = false → JsMap.set m k v = (m ++ [(k, v)])%list.
Proof.
  induction m as [|[k' v'] m IH]; simpl; [reflexivity |].
  destruct (String.eqb k' k); [discriminate |].
  intros H. rewrite (IH H). reflexivity.
Qed.

Lemma JsMap_get_set_eq m k v :
  JsMap.get (JsMap.set m k v) k = Some v.
Proof.
  induction m as [|[k' v'] m IH]; simpl.
  - rewrite String.eqb_refl. reflexivity.
  - destruct (String.eqb k' k) eqn:E; simpl.
    + rewrite String.eqb_refl. reflexivity.
    + rewrite E. exact IH.
Qed.

Lemma JsMap_get_set_ne m k k0 v :
  k ≠ k0 → JsMap.get (JsMap.set m k v) k0 = JsMap.get m k0.
Proof.
  intros Hne.
  induction m as [|[k' v'] m IH]; simpl.
  - destruct (String.eqb_spec k k0); [contradiction | reflexivity].
  - destruct (String.eqb_spec k' k) as [->|Hk]; simpl.
    + destruct (String.eqb_spec k k0); [contradiction | reflexivity].
    + destruct (String.eqb k' k0); [reflexivity | exact IH].
Qed.


(** With no key stored twice, [get] finds exactly the stored pairs. *)
Lemma JsMap_get_elem_of m k v :
  NoDup (JsMap.keys m) → JsMap.get m k = Some v ↔ (k, v) ∈ m.
Proof.
  unfold JsMap.keys.
  induction m as [|[k' v'] m IH]; simpl; intros Hnd.
  - rewrite elem_of_nil. split; [discriminate | tauto].
  - apply NoDup_cons in Hnd as [Hk' Hnd].
    rewrite elem_of_cons.
    destruct (String.eqb_spec k' k) as [->|Hne].
    + split.
      * intros [= ->]. left. reflexivity.
      * intros [[= ->]|Hin]; [reflexivity |].
        exfalso. apply Hk'. apply list_elem_of_fmap. exists (k, v). auto.
    + rewrite (IH Hnd). split; [auto |].
      intros [[= -> ->]|?]; [congruence | assumption].
Qed.
End JsMapFacts.

(** ** The methods of [Registry] *)

Lemma elem_of_registered this n :
  n ∈ registered this ↔ JsMap.has (entries this) n = true.
Proof.
  unfold registered. rewrite elem_of_list_to_set, JsMap_has_keys. reflexivity.
Qed.

Lemma not_elem_of_registered this n :
  n ∉ registered this ↔ JsMap.has (entries this) n = false.
Proof. rewrite elem_of_registered. apply Bool.not_true_iff_false. Qed.

Lemma strict_equals_refl x : strict_equals x x = true.
Proof.
  destruct x; simpl; auto.
  - apply Bool.eqb_reflx.
  - apply Z.eqb_refl.
  - apply String.eqb_refl.
  - apply Nat.eqb_refl.
Qed.

Lemma register_fresh this n x t c :
  JsMap.has (entries this) n = false →
  get_constructor x = Return c →
  register n x t this
  = ({| entries := JsMap.set (entries this) n (entry_of n x t c) |},
     Return ()).
Proof. intros Hn Hc. unfold register. rewrite Hn, Hc. reflexivity. Qed.

Lemma register_taken this n x t :
  JsMap.has (entries this) n = true →
  register n x t this = (this, Throw (DuplicateNameError n)).
Proof. intros Hn. unfold register. rewrite Hn. reflexivity. Qed.

Lemma register_returns_inv this this' n x t :
  register n x t this = (this', Return ()) →
  JsMap.has (entries this) n = false
  ∧ (∃ c, get_constructor x = Return c
          ∧ this' = {| entries := JsMap.set (entries this) n (entry_of n x t c) |}).
Proof.
  unfold register.
  destruct (JsMap.has (entries this) n); [discriminate |].
  destruct (get_constructor x) as [c|e]; [|discriminate].
  cbv zeta. intros [= <-]. eauto.
Qed.

(** A call that throws leaves the receiver as it was. *)
Lemma register_throws_unchanged this this' n x t e :
  register n x t this = (this', Throw e) → this' = this.
Proof.
  unfold register.
  destruct (JsMap.has (entries this) n); [congruence |].
  destruct (get_constructor x); [discriminate | congruence].
Qed.

(** On [null] and [undefined] the read of [instance.constructor] throws, so
    registering them under a free name stores nothing. *)
Lemma register_nullish_throws this n x t :
  JsMap.has (entries this) n = false →
  x = JsUndefined ∨ x = JsNull →
  register n x t this = (this, Throw TypeError).
Proof.
  intros Hn Hx. unfold register. rewrite Hn.
  destruct Hx as [-> | ->]; reflexivity.
Qed.

(** [get] never writes to the receiver. *)
Lemma get_unchanged this n : (get n this).1 = this.
Proof. unfold get. destruct (JsMap.get (entries this) n); reflexivity. Qed.

Lemma after_keeps_entry c this n e :
  is_clear c = false →
  JsMap.get (entries this) n = Some e →
  JsMap.get (entries (after c this)) n = Some e.
Proof.
  intros Hc Hget.
  destruct c as [n0 x0 t0|n0| | | |]; simpl in *; try assumption;
    [|rewrite get_unchanged; assumption|discriminate].
  unfold register.
  destruct (JsMap.has (entries this) n0) eqn:Hn0; simpl; [assumption |].
  destruct (get_constructor x0); simpl; [|assumption].
  rewrite JsMap_get_set_ne; [assumption |].
  intros ->. apply JsMap_has_false_get in Hn0. congruence.
Qed.

Lemma run_keeps_entry cs this n e :
  Forall (λ c, is_clear c = false) cs →
  JsMap.get (entries this) n = Some e →
  JsMap.get (entries (run cs this)) n = Some e.
Proof.
  intros Hcs. revert this.
  induction Hcs as [|c cs Hc _ IH]; intros this Hget; simpl; [assumption |].
  apply IH, after_keeps_entry; assumption.
Qed.


(** *** The invariant of [#entries] *)

Lemma entries_ok_empty : entries_ok JsMap.empty.
Proof. split; [apply NoDup_nil_2 | apply Forall_nil_2]. Qed.

Lemma entries_ok_set_fresh m n e :
  entries_ok m → JsMap.has m n = false → name e = n →
  entries_ok (JsMap.set m n e).
Proof.
  intros [Hnd Hall] Hn He. rewrite JsMap_set_fresh by assumption.
  split.
  - unfold JsMap.keys in *. rewrite fmap_app. simpl.
    apply NoDup_app. split; [assumption |]. split; [|apply NoDup_singleton].
    intros k Hk Hk'. apply list_elem_of_singleton in Hk' as ->.
    apply JsMap_has_keys in Hk. congruence.
  - apply Forall_app. split; [assumption |].
    apply Forall_singleton. exact He.
Qed.

Lemma after_entries_ok c this :
  entries_ok (entries this) → entries_ok (entries (after c this)).
Proof.
  intros Hok. destruct c as [n x t|n| | | |]; simpl; try assumption;
    [|rewrite get_unchanged; assumption|apply entries_ok_empty].
  unfold register.
  destruct (JsMap.has (entries this) n) eqn:Hn; simpl; [assumption |].
  destruct (get_constructor x); simpl; [|assumption].
  apply entries_ok_set_fresh; [assumption | assumption | reflexivity].
Qed.

Lemma reachable_entries_ok this :
  reachable this → entries_ok (entries this).
Proof.
  induction 1 as [|c this _ IH]; [apply entries_ok_empty |].
  apply after_entries_ok, IH.
Qed.

Lemma reachable_run cs this : reachable this → reachable (run cs this).
Proof.
  revert this. induction cs as [|c cs IH]; intros this H; simpl; [assumption |].
  apply IH. constructor. assumption.
Qed.

(** ** Registration and lookup *)

(** Two distinct objects with the same contents are not [===]: a copy of a
    registered instance would be told apart from it. *)
Example copy_is_not_identical :
  strict_equals (JsObject 10 (Some Object)) (JsObject 11 (Some Object)) = false.
Proof. reflexivity. Qed.

(** C1: when [n] is not registered and [register(n, x, type?)] returns, then
    [get(n)] returns [x] itself (the same reference, [===] to [x]), and it
    keeps returning [x] after any further calls on the registry as long as
    none of them is [clear()]. *)
Theorem register_get_identity this this' n x t cs :
  n ∉ registered this →
  register n x t this = (this', Return ()) →
  Forall (λ c, is_clear c = false) cs →
  get n this' = (this', Return x)
  ∧ ∃ y, get n (run cs this') = (run cs this', Return y)
         ∧ y = x ∧ strict_equals y x = true.
Proof.
  intros _ Hreg Hcs.
  apply register_returns_inv in Hreg as (_ & c & _ & ->).
  assert (Hget : JsMap.get (JsMap.set (entries this) n (entry_of n x t c)) n
                 = Some (entry_of n x t c)) by apply JsMap_get_set_eq.
  split.
  - unfold get. simpl. rewrite Hget. reflexivity.
  - exists x. split; [|split; [reflexivity | apply strict_equals_refl]].
    unfold get. erewrite run_keeps_entry by (try eassumption; exact Hget).
    reflexivity.
Qed.

Lemma register_get_identity_witness :
  let x := JsObject 10 (Some Object) in
  let this' := (register "test" x None new_Registry).1 in
  let cs := [CallGet "test"; CallRegister "other" (JsNumber 7) None;
             CallRegister "test" JsNull None; CallList] in
  get "test" this' = (this', Return x)
  ∧ ∃ y, get "test" (run cs this') = (run cs this', Return y)
         ∧ y = x ∧ strict_equals y x = true.
Proof.
  cbv zeta.
  apply (register_get_identity new_Registry _ "test" _ None).
  - apply not_elem_of_registered. reflexivity.
  - reflexivity.
  - repeat constructor.
Defined.

(** C2: when [n] is already registered, [register(n, y, type?)] throws the
    duplicate-name error for every [y] and [type], the registry is exactly
    as before the call, and [getEntry(n)] and [get(n)] still give the entry
    and the instance of the first registration. *)
Theorem register_duplicate this n y t :
  n ∈ registered this →
  ∃ this', register n y t this = (this', Throw (DuplicateNameError n))
    ∧ this' = this
    ∧ ∃ e, getEntry n this = (this, Return (Some e))
           ∧ getEntry n this' = (this', Return (Some e))
           ∧ get n this = (this, Return (instance e))
           ∧ get n this' = (this', Return (instance e)).
Proof.
  intros Hn. apply elem_of_registered in Hn.
  exists this. split; [apply register_taken, Hn |]. split; [reflexivity |].
  apply JsMap_has_get in Hn as [e He]. exists e.
  unfold getEntry, get. rewrite He. auto.
Qed.

Lemma register_duplicate_witness :
  let x := JsObject 10 (Some Object) in
  let this := (register "test" x None new_Registry).1 in
  ∃ this', register "test" (JsObject 11 (Some Object)) (Some "Other") this
           = (this', Throw (DuplicateNameError "test"))
    ∧ this' = this
    ∧ ∃ e, getEntry "test" this = (this, Return (Some e))
           ∧ getEntry "test" this' = (this', Return (Some e))
           ∧ get "test" this = (this, Return (instance e))
           ∧ get "test" this' = (this', Return (instance e)).
Proof.
  cbv zeta. apply register_duplicate.
  apply elem_of_registered. reflexivity.
Defined.

(** C3: [get(n)] throws exactly when [n] is not registered, and what it
    throws then is the not-found error; it never returns a value for an
    absent name. *)
Theorem get_throws_iff_absent this n :
  (n ∉ registered this ↔ get n this = (this, Throw (NotFoundError n)))
  ∧ ((∃ err, (get n this).2 = Throw err) ↔ n ∉ registered this)
  ∧ ((∃ x, get n this = (this, Return x)) ↔ n ∈ registered this).
Proof.
  rewrite not_elem_of_registered, elem_of_registered.
  rewrite JsMap_has_false_get, JsMap_has_get.
  unfold get. destruct (JsMap.get (entries this) n) as [e|]; simpl.
  - split; [|split].
    + split; [discriminate | intros [=]].
    + split; [intros [err [=]] | discriminate].
    + split; eauto.
  - split; [|split].
    + split; reflexivity.
    + split; eauto.
    + split; [intros [x [=]] | intros [? [=]]].
Qed.

(** ** Type labels *)

Example register_TestClass :
  (getEntry "test"
     (register "test" (JsObject 10 (Some TestClass)) None new_Registry).1).2
  = Return (Some {| name := "test";
                    instance := JsObject 10 (Some TestClass);
                    type := "TestClass";
                    constructor := TestClass |}).
Proof. reflexivity. Qed.

Example register_custom_label :
  (getEntry "test"
     (register "test" (JsObject 10 (Some Object)) (Some "CustomType")
        new_Registry).1).2
  = Return (Some {| name := "test";
                    instance := JsObject 10 (Some Object);
                    type := "CustomType";
                    constructor := Object |}).
Proof. reflexivity. Qed.

Example register_without_constructor :
  (getEntry "bare" (register "bare" (JsObject 10 None) None new_Registry).1).2
  = Return (Some {| name := "bare";
                    instance := JsObject 10 None;
                    type := "Unknown";
                    constructor := Object |}).
Proof. reflexivity. Qed.

Example register_anonymous_class :
  (getEntry "anon"
     (register "anon" (JsObject 10 (Some AnonymousClass)) None
        new_Registry).1).2
  = Return (Some {| name := "anon";
                    instance := JsObject 10 (Some AnonymousClass);
                    type := "Unknown";
                    constructor := AnonymousClass |}).
Proof. reflexivity. Qed.

Lemma register_stores this n x t c :
  JsMap.has (entries this) n = false →
  get_constructor x = Return c →
  ∃ this', register n x t this = (this', Return ())
    ∧ getEntry n this' = (this', Return (Some (entry_of n x t c))).
Proof.
  intros Hn Hc. eexists. split; [apply register_fresh; eassumption |].
  unfold getEntry. simpl. rewrite JsMap_get_set_eq. reflexivity.
Qed.

(** C4, as stated, does not hold of primitive values: a primitive number has
    a runtime type name (its wrapper's), so it is labelled "Number" and not
    "Unknown"; and for [null], which has none, [register] throws while
    reading the constructor and stores no label at all. *)
Lemma primitive_label_counterexample :
  (∃ this' e,
      register "n" (JsNumber 42) None new_Registry = (this', Return ())
      ∧ getEntry "n" this' = (this', Return (Some e))
      ∧ type e = "Number" ∧ type e ≠ "Unknown")
  ∧ (register "n" JsNull None new_Registry = (new_Registry, Throw TypeError)
     ∧ getEntry "n" new_Registry = (new_Registry, Return None)).
Proof.
  split.
  - eexists _, _. split; [reflexivity |]. split; [reflexivity |].
    split; [reflexivity | discriminate].
  - split; reflexivity.
Qed.

(** The label stored by a [register] call that was given no label, or the
    empty one, and that returned: by cases on the instance. *)
Lemma register_label_cases this this' n x t :
  t = None ∨ t = Some "" →
  register n x t this = (this', Return ()) →
  ∃ e, getEntry n this' = (this', Return (Some e))
    ∧ type e ≠ ""
    ∧ (∀ r k s, x = JsObject r (Some k) → ctor_name k = Some s → s ≠ "" →
                type e = s)
    ∧ (∀ r k, x = JsObject r (Some k) →
              ctor_name k = None ∨ ctor_name k = Some "" →
              type e = "Unknown")
    ∧ (∀ r, x = JsObject r None → type e = "Unknown")
    ∧ ((∃ b, x = JsBoolean b) → type e = "Boolean")
    ∧ ((∃ z, x = JsNumber z) → type e = "Number")
    ∧ ((∃ s, x = JsString s) → type e = "String").
Proof.
  intros Ht Hreg.
  apply register_returns_inv in Hreg as (Hn & c & Hc & ->).
  exists (entry_of n x t c). split.
  { unfold getEntry. simpl. rewrite JsMap_get_set_eq. reflexivity. }
  assert (Hty : type (entry_of n x t c) = or_string (c ≫= ctor_name) "Unknown").
  { destruct Ht as [-> | ->]; reflexivity. }
  rewrite Hty. clear Hty Ht. split.
  { destruct (c ≫= ctor_name) as [s|]; simpl; [|discriminate].
    destruct (String.eqb_spec s ""); [discriminate | assumption]. }
  split.
  { intros r k s -> Hk Hs. injection Hc as <-. simpl. rewrite Hk. simpl.
    destruct (String.eqb_spec s ""); [contradiction | reflexivity]. }
  split.
  { intros r k -> Hk. injection Hc as <-. simpl.
    destruct Hk as [-> | ->]; reflexivity. }
  split.
  { intros r ->. injection Hc as <-. reflexivity. }
  split; [|split].
  - intros [b ->]. injection Hc as <-. reflexivity.
  - intros [z ->]. injection Hc as <-. reflexivity.
  - intros [s ->]. injection Hc as <-. reflexivity.
Qed.

(** C4, amended: when the type argument is omitted, [n] is free and
    [register(n, x)] returns, the stored label is the name of [x]'s
    constructor when that name is a non-empty string ("TestClass" for an
    instance of [TestClass]), and "Unknown" when [x] has no constructor or
    the constructor's name is undefined or empty.  Booleans, numbers and
    strings are labelled "Boolean", "Number" and "String". *)
Theorem register_inferred_label this this' n x :
  n ∉ registered this →
  register n x None this = (this', Return ()) →
  ∃ e, getEntry n this' = (this', Return (Some e))
    ∧ type e ≠ ""
    ∧ (∀ r k s, x = JsObject r (Some k) → ctor_name k = Some s → s ≠ "" →
                type e = s)
    ∧ (∀ r k, x = JsObject r (Some k) →
              ctor_name k = None ∨ ctor_name k = Some "" →
              type e = "Unknown")
    ∧ (∀ r, x = JsObject r None → type e = "Unknown")
    ∧ ((∃ b, x = JsBoolean b) → type e = "Boolean")
    ∧ ((∃ z, x = JsNumber z) → type e = "Number")
    ∧ ((∃ s, x = JsString s) → type e = "String").
Proof.
  intros _ Hreg. eapply register_label_cases; [left; reflexivity | exact Hreg].
Qed.

Lemma register_inferred_label_witness :
  let this' := (register "test" (JsObject 10 (Some TestClass)) None
                  new_Registry).1 in
  ∃ e, getEntry "test" this' = (this', Return (Some e))
    ∧ type e = "TestClass".
Proof.
  cbv zeta.
  destruct (register_inferred_label new_Registry
              (register "test" (JsObject 10 (Some TestClass)) None
                 new_Registry).1
              "test" (JsObject 10 (Some TestClass)))
    as (e & He & _ & Hnamed & _).
  - apply not_elem_of_registered. reflexivity.
  - reflexivity.
  - exists e. split; [exact He |].
    apply (Hnamed 10 TestClass "TestClass");
      [reflexivity | reflexivity | discriminate].
Defined.



(** ** Probing: [has] and [getEntry] *)




(** C9: [getEntry(n)] never throws.  For an absent name it returns
    [undefined]; for a registered name it returns the entry, whose instance
    is what [get(n)] returns, and that entry is the record [register] built
    from its arguments: the name, the instance, the label and the
    constructor handle. *)
Theorem getEntry_never_throws this n :
  ∃ r, getEntry n this = (this, Return r)
    ∧ (r = None ↔ n ∉ registered this)
    ∧ (∀ e, r = Some e → get n this = (this, Return (instance e)))
    ∧ ∀ this0 x t c cs,
        n ∉ registered this0 →
        get_constructor x = Return c →
        Forall (λ call, is_clear call = false) cs →
        this = run cs (register n x t this0).1 →
        r = Some {| name := n;
                    instance := x;
                    type := or_string t (or_string (c ≫= ctor_name) "Unknown");
                    constructor := default Object c |}.
Proof.
  exists (JsMap.get (entries this) n). split; [reflexivity |].
  split; [|split].
  - rewrite not_elem_of_registered. symmetry. apply JsMap_has_false_get.
  - intros e He. unfold get. rewrite He. reflexivity.
  - intros this0 x t c cs Hn Hc Hcs ->.
    apply not_elem_of_registered in Hn.
    rewrite (register_fresh this0 n x t c Hn Hc). simpl.
    apply run_keeps_entry; [assumption |]. simpl.
    apply JsMap_get_set_eq.
Qed.

(** ** Enumeration and reset *)

Lemma list_names m :
  entries_ok m →
  fst <$> ((λ entry, (name entry, type entry)) <$> JsMap.values m)
  = JsMap.keys m.
Proof.
  intros [_ Hall]. unfold JsMap.values, JsMap.keys.
  rewrite <- !list_fmap_compose. apply Forall_fmap_ext_1.
  eapply Forall_impl; [exact Hall |]. intros [k e]. simpl. auto.
Qed.

Lemma list_elem_of m n t :
  entries_ok m →
  (n, t) ∈ (λ entry, (name entry, type entry)) <$> JsMap.values m
  ↔ ∃ e, JsMap.get m n = Some e ∧ type e = t.
Proof.
  intros Hok. pose proof Hok as [Hnd Hall].
  unfold JsMap.values. rewrite <- list_fmap_compose, list_elem_of_fmap.
  rewrite Forall_forall in Hall. split.
  - intros ([k e] & Heq & Hin). simpl in Heq. injection Heq as -> ->.
    exists e. split; [|reflexivity].
    apply JsMap_get_elem_of; [assumption |].
    pose proof (Hall _ Hin) as Hk. simpl in Hk. rewrite Hk. exact Hin.
  - intros (e & Hget & <-). exists (n, e).
    apply JsMap_get_elem_of in Hget; [|assumption].
    split; [|assumption]. simpl.
    pose proof (Hall _ Hget) as Hk. simpl in Hk. rewrite Hk. reflexivity.
Qed.

(** C6: in every state of the registry, [list()] returns, without throwing,
    one [(name, type)] pair per registered entry: as many pairs as there are
    registered names, no pair twice, and a pair is listed exactly when an
    entry with that name and label is registered; the list is empty when
    nothing is registered. *)
Theorem list_registered this :
  reachable this →
  ∃ l, list_ this = (this, Return l)
    ∧ length l = size (registered this)
    ∧ NoDup l
    ∧ (∀ n t, (n, t) ∈ l
              ↔ ∃ e, getEntry n this = (this, Return (Some e)) ∧ type e = t)
    ∧ (registered this = ∅ → l = []).
Proof.
  intros Hreach. pose proof (reachable_entries_ok _ Hreach) as Hok.
  eexists. split; [reflexivity |].
  assert (Hlen : length ((λ entry, (name entry, type entry))
                           <$> JsMap.values (entries this))
                 = size (registered this)).
  { unfold registered. rewrite size_list_to_set by apply Hok.
    unfold JsMap.values, JsMap.keys. rewrite !length_fmap. reflexivity. }
  split; [exact Hlen |]. split; [|split].
  - apply (NoDup_fmap_1 fst). rewrite list_names by assumption. apply Hok.
  - intros n t. rewrite list_elem_of by assumption. unfold getEntry.
    split; intros (e & He & Ht); exists e; split; congruence.
  - intros Hempty. rewrite Hempty, size_empty in Hlen.
    apply nil_length_inv, Hlen.
Qed.

Lemma list_registered_witness :
  let this :=
    run [CallRegister "redis" (JsObject 10 (Some Object)) (Some "Redis");
         CallRegister "kafka" (JsObject 11 (Some Object)) (Some "Kafka");
         CallRegister "sqs" (JsObject 12 (Some Object)) (Some "SQS")]
      new_Registry in
  ∃ l, list_ this = (this, Return l)
    ∧ length l = size (registered this)
    ∧ NoDup l
    ∧ (∀ n t, (n, t) ∈ l
              ↔ ∃ e, getEntry n this = (this, Return (Some e)) ∧ type e = t)
    ∧ (registered this = ∅ → l = []).
Proof.
  cbv zeta. apply list_registered. apply reachable_run, reachable_new.
Defined.

Example list_three :
  (list_ (run [CallRegister "redis" (JsObject 10 (Some Object)) (Some "Redis");
               CallRegister "kafka" (JsObject 11 (Some Object)) (Some "Kafka");
               CallRegister "sqs" (JsObject 12 (Some Object)) (Some "SQS")]
            new_Registry)).2
  = Return [("redis", "Redis"); ("kafka", "Kafka"); ("sqs", "SQS")].
Proof. reflexivity. Qed.

(** C8: [clear()] never throws and leaves no entry: afterwards no name is
    registered, [has(n)] is [false] for every [n], [list()] is empty, a
    second [clear()] changes nothing, and on a registry that was already
    empty the call leaves the state as it was. *)
Theorem clear_removes_all this :
  ∃ this', clear this = (this', Return ())
    ∧ registered this' = ∅
    ∧ (∀ n, has n this' = (this', Return false))
    ∧ list_ this' = (this', Return [])
    ∧ clear this' = (this', Return ())
    ∧ (registered this = ∅ → this' = this).
Proof.
  eexists. split; [reflexivity |]. repeat split.
  intros Hempty. destruct this as [[|[k e] m]]; [reflexivity |].
  exfalso. assert (Hk : k ∈ registered {| entries := (k, e) :: m |}).
  { apply elem_of_registered. simpl. rewrite String.eqb_refl. reflexivity. }
  rewrite Hempty in Hk. exact (not_elem_of_empty k Hk).
Qed.

(** ** The process-wide accessor *)

Lemma act_registryInstance a p :
  registryInstance (act a p) = registryInstance p.
Proof.
  destruct a as [| |r c]; simpl; try reflexivity.
  destruct (heap p !! r); reflexivity.
Qed.

Lemma perform_registryInstance acts p :
  registryInstance (perform acts p) = registryInstance p.
Proof.
  revert p. induction acts as [|a acts IH]; intros p; simpl; [reflexivity |].
  rewrite IH. apply act_registryInstance.
Qed.

(** Objects are never removed from the heap. *)
Lemma act_keeps_live a p r :
  is_Some (heap p !! r) → is_Some (heap (act a p) !! r).
Proof.
  intros Hr. destruct a as [| |r0 c]; simpl; [|assumption|].
  - apply lookup_insert_is_Some'. auto.
  - destruct (heap p !! r0) eqn:E; [|assumption]. simpl.
    apply lookup_insert_is_Some'. auto.
Qed.

Lemma perform_keeps_live acts p r :
  is_Some (heap p !! r) → is_Some (heap (perform acts p) !! r).
Proof.
  revert p. induction acts as [|a acts IH]; intros p Hr; simpl; [assumption |].
  apply IH, act_keeps_live, Hr.
Qed.

Lemma module_load_live :
  is_Some (heap module_load !! registryInstance module_load).
Proof. unfold module_load. simpl. rewrite lookup_insert_eq. eauto. Qed.

(** A method that returns the receiver unchanged leaves the whole process
    unchanged when called through a live reference. *)
Lemma invoke_read_only {A} (m : Method A) p r this a :
  heap p !! r = Some this →
  m this = (this, a) →
  invoke r m p = Some (p, a).
Proof.
  intros Hr Hm. unfold invoke. rewrite Hr. simpl. rewrite Hm.
  rewrite insert_id by assumption. destruct p; reflexivity.
Qed.



(** The test suite's scenario: clients register through one reference and
    read through another, with an unrelated registry created in between. *)
Example shared_state :
  let p0 := module_load in
  let registry1 := getRegistry p0 in
  let p1 := act (ActCall registry1
                   (CallRegister "shared" (JsObject 10 (Some Object)) None))
                p0 in
  let p2 := act ActNew p1 in
  let registry2 := getRegistry p2 in
  registry1 = registry2
  ∧ invoke registry2 (has "shared") p2 = Some (p2, Return true)
  ∧ invoke registry2 (get "shared") p2
    = Some (p2, Return (JsObject 10 (Some Object)))
  ∧ invoke (fresh (dom (heap p1))) (has "shared") p2
    = Some (p2, Return false).
Proof.
  cbv zeta. split; [reflexivity |].
  split; [|split]; eapply invoke_read_only; reflexivity.
Qed.

(** * Further properties of the registry *)

Local Open Scope list_scope.

(** ** Helpers on [register] and [list] *)

Lemma get_constructor_not_nullish x :
  nullish x = false ↔ ∃ c, get_constructor x = Return c.
Proof.
  destruct x; simpl; split; eauto; try discriminate;
    intros [c Hc]; discriminate.
Qed.

Lemma registered_set_fresh this n e :
  JsMap.has (entries this) n = false →
  registered {| entries := JsMap.set (entries this) n e |}
  = {[n]} ∪ registered this.
Proof.
  intros Hn. unfold registered. simpl.
  rewrite JsMap_set_fresh by assumption.
  unfold JsMap.keys. rewrite fmap_app, list_to_set_app_L. simpl.
  rewrite union_empty_r_L. apply (comm_L (∪)).
Qed.

Lemma list_set_fresh this n e :
  JsMap.has (entries this) n = false →
  (λ entry, (name entry, type entry))
    <$> JsMap.values (JsMap.set (entries this) n e)
  = ((λ entry, (name entry, type entry)) <$> JsMap.values (entries this))
    ++ [(name e, type e)].
Proof.
  intros Hn. rewrite JsMap_set_fresh by assumption.
  unfold JsMap.values. rewrite !fmap_app. reflexivity.
Qed.

(** ** What every stored entry satisfies *)

Lemma or_string_nonempty a b : b ≠ "" → or_string a b ≠ "".
Proof.
  intros Hb. destruct a as [s|]; simpl; [|assumption].
  destruct (String.eqb_spec s ""); assumption.
Qed.

Lemma entry_of_built n x t c :
  get_constructor x = Return c → entry_built n (entry_of n x t c).
Proof.
  intros Hc. split; [reflexivity |]. split; [|split].
  - simpl. apply or_string_nonempty, or_string_nonempty. discriminate.
  - simpl. apply get_constructor_not_nullish. eauto.
  - exists c. split; [assumption | reflexivity].
Qed.

Lemma after_entries_built c this :
  Forall (λ kv, entry_built kv.1 kv.2) (entries this) →
  Forall (λ kv, entry_built kv.1 kv.2) (entries (after c this)).
Proof.
  intros Hall. destruct c as [n x t|n| | | |]; simpl; try assumption;
    [|rewrite get_unchanged; assumption|apply Forall_nil_2].
  unfold register.
  destruct (JsMap.has (entries this) n) eqn:Hn; simpl; [assumption |].
  destruct (get_constructor x) as [c|e] eqn:Hc; simpl; [|assumption].
  rewrite JsMap_set_fresh by assumption.
  apply Forall_app. split; [assumption |].
  apply Forall_singleton. simpl. apply (entry_of_built n x t c Hc).
Qed.

Lemma reachable_entries_built this :
  reachable this → Forall (λ kv, entry_built kv.1 kv.2) (entries this).
Proof.
  induction 1 as [|c this _ IH]; [apply Forall_nil_2 |].
  apply after_entries_built, IH.
Qed.

Lemma JsMap_get_Some_elem_of {V} (m : JsMap.t V) k v :
  JsMap.get m k = Some v → (k, v) ∈ m.
Proof.
  induction m as [|[k' v'] m IH]; simpl; [discriminate |].
  destruct (String.eqb_spec k' k) as [->|Hne].
  - intros [= ->]. apply list_elem_of_here.
  - intros H. apply list_elem_of_further, IH, H.
Qed.

(** X5: in every state of the registry, an entry found under a name [n]
    carries that name, a label that is not the empty string, an instance
    that is neither [null] nor [undefined], and as handle the instance's own
    constructor, or [Object] when the instance has none; so [get(n)] never
    returns [null] or [undefined]. *)
Theorem stored_entry_well_formed this n e :
  reachable this →
  getEntry n this = (this, Return (Some e)) →
  name e = n
  ∧ type e ≠ ""
  ∧ get n this = (this, Return (instance e))
  ∧ instance e ≠ JsUndefined
  ∧ instance e ≠ JsNull
  ∧ ∃ c, get_constructor (instance e) = Return c
         ∧ constructor e = default Object c.
Proof.
  intros Hreach Hentry.
  assert (Hget : JsMap.get (entries this) n = Some e)
    by (unfold getEntry in Hentry; congruence).
  pose proof (reachable_entries_built this Hreach) as Hall.
  rewrite Forall_forall in Hall.
  destruct (Hall _ (JsMap_get_Some_elem_of _ _ _ Hget))
    as (Hname & Htype & Hnull & Hctor).
  simpl in *. split; [assumption |]. split; [assumption |].
  split; [unfold get; rewrite Hget; reflexivity |].
  split; [intros Hx; rewrite Hx in Hnull; discriminate |].
  split; [intros Hx; rewrite Hx in Hnull; discriminate | assumption].
Qed.

Lemma stored_entry_well_formed_witness :
  let x := JsObject 10 None in
  let this := run [CallRegister "bare" x (Some ""); CallGet "bare"]
                new_Registry in
  let e := {| name := "bare"; instance := x; type := "Unknown";
              constructor := Object |} in
  name e = "bare"
  ∧ type e ≠ ""
  ∧ get "bare" this = (this, Return (instance e))
  ∧ instance e ≠ JsUndefined
  ∧ instance e ≠ JsNull
  ∧ ∃ c, get_constructor (instance e) = Return c
         ∧ constructor e = default Object c.
Proof.
  cbv zeta. apply stored_entry_well_formed.
  - apply reachable_run, reachable_new.
  - reflexivity.
Defined.

(** ** Between two resets the registry only grows *)

Lemma after_appends c this :
  is_clear c = false →
  ∃ added,
    (list_ (after c this)).2
    = Return (((λ entry, (name entry, type entry))
                 <$> JsMap.values (entries this)) ++ added)
    ∧ registered this ⊆ registered (after c this).
Proof.
  intros Hc.
  destruct c as [n x t|n| | | |]; simpl in *; try discriminate;
    try (exists []; rewrite app_nil_r; split; reflexivity).
  - unfold register.
    destruct (JsMap.has (entries this) n) eqn:Hn; simpl;
      [exists []; rewrite app_nil_r; split; reflexivity |].
    destruct (get_constructor x) as [c|e]; simpl;
      [|exists []; rewrite app_nil_r; split; reflexivity].
    eexists. rewrite list_set_fresh, registered_set_fresh by assumption.
    split; [reflexivity |]. apply union_subseteq_r.
  - rewrite get_unchanged. exists []. rewrite app_nil_r. split; reflexivity.
Qed.

(** X6: as long as [clear()] is not called, the registry is append-only.
    After any sequence of other calls every name registered before is still
    registered, and [list()] returns what it returned before, in the same
    order, followed by the pairs of the entries registered since. *)
Theorem calls_without_clear_only_append cs this :
  Forall (λ c, is_clear c = false) cs →
  ∃ l added,
    list_ this = (this, Return l)
    ∧ list_ (run cs this) = (run cs this, Return (l ++ added))
    ∧ registered this ⊆ registered (run cs this).
Proof.
  intros Hcs.
  exists ((λ entry, (name entry, type entry)) <$> JsMap.values (entries this)).
  revert this.
  induction Hcs as [|c cs Hc _ IH]; intros this.
  - exists []. rewrite app_nil_r. split; [reflexivity |].
    split; reflexivity.
  - destruct (after_appends c this Hc) as (added1 & Hlist & Hsub).
    destruct (IH (after c this)) as (added2 & _ & Hrun & Hsub').
    exists (added1 ++ added2). split; [reflexivity |]. split.
    + simpl. rewrite Hrun. unfold list_ in Hlist. simpl in Hlist.
      injection Hlist as ->. rewrite app_assoc. reflexivity.
    + simpl. etransitivity; eassumption.
Qed.

Lemma calls_without_clear_only_append_witness :
  let cs := [CallRegister "kafka" (JsObject 11 (Some Object)) (Some "Kafka");
             CallGet "missing";
             CallRegister "redis" (JsObject 12 (Some Object)) None;
             CallRegister "sqs" JsNull (Some "SQS")] in
  let this := (register "redis" (JsObject 10 (Some Object)) (Some "Redis")
                 new_Registry).1 in
  ∃ l added,
    list_ this = (this, Return l)
    ∧ list_ (run cs this) = (run cs this, Return (l ++ added))
    ∧ registered this ⊆ registered (run cs this).
Proof.
  cbv zeta. apply calls_without_clear_only_append. repeat constructor.
Defined.

(** ** Registries in the process *)

Lemma act_heap_reachable a p :
  map_Forall (λ _ this, reachable this) (heap p) →
  map_Forall (λ _ this, reachable this) (heap (act a p)).
Proof.
  intros Hall. destruct a as [| |r c]; simpl; [|assumption|].
  - apply map_Forall_insert_2; [apply reachable_new | assumption].
  - destruct (heap p !! r) as [this|] eqn:Hr; [|assumption]. simpl.
    apply map_Forall_insert_2; [|assumption].
    apply reachable_call. exact (Hall r this Hr).
Qed.

Lemma perform_heap_reachable acts p :
  map_Forall (λ _ this, reachable this) (heap p) →
  map_Forall (λ _ this, reachable this) (heap (perform acts p)).
Proof.
  revert p. induction acts as [|a acts IH]; intros p Hall; simpl;
    [assumption |].
  apply IH, act_heap_reachable, Hall.
Qed.

Lemma module_load_heap_reachable :
  map_Forall (λ _ this, reachable this) (heap module_load).
Proof.
  unfold module_load. simpl.
  apply map_Forall_insert_2; [apply reachable_new | apply map_Forall_empty].
Qed.

(** X9: whatever clients do with the module's exports, every [Registry]
    object in the process, the one behind [getRegistry()] included, is in a
    state that method calls lead to from [new Registry()]: no key of
    [#entries] occurs twice and every entry is stored under its own name. *)
Theorem heap_registries_reachable acts r this :
  heap (perform acts module_load) !! r = Some this →
  reachable this ∧ entries_ok (entries this).
Proof.
  intros Hr.
  assert (Hreach : reachable this).
  { exact (perform_heap_reachable acts module_load
             module_load_heap_reachable r this Hr). }
  split; [assumption | apply reachable_entries_ok, Hreach].
Qed.

Lemma heap_registries_reachable_witness :
  let x := JsObject 10 (Some Object) in
  let acts := [ActGetRegistry;
               ActCall (getRegistry module_load)
                 (CallRegister "shared" x None);
               ActNew] in
  let this := (register "shared" x None new_Registry).1 in
  reachable this ∧ entries_ok (entries this).
Proof.
  cbv zeta.
  apply (heap_registries_reachable
           [ActGetRegistry;
            ActCall (getRegistry module_load)
              (CallRegister "shared" (JsObject 10 (Some Object)) None);
            ActNew]
           (getRegistry module_load)).
  reflexivity.
Defined.

(** X10: a registry that a client creates with [new Registry()] is
    independent of the process-wide one.  It is a new object, different
    from what [getRegistry()] returns, and it starts empty; creating it
    leaves the process-wide registry as it was, a call through the new
    reference does not touch the process-wide registry, and a call through
    [getRegistry()] does not touch the new one. *)
Theorem new_Registry_is_independent acts c :
  let p := perform acts module_load in
  let own := (alloc_Registry (heap p)).1 in
  let p1 := act ActNew p in
  own ≠ getRegistry p1
  ∧ heap p1 !! own = Some new_Registry
  ∧ heap p1 !! getRegistry p1 = heap p !! getRegistry p
  ∧ heap (act (ActCall own c) p1) !! getRegistry p1
    = heap p !! getRegistry p
  ∧ heap (act (ActCall (getRegistry p1) c) p1) !! own = Some new_Registry.
Proof.
  cbv zeta. set (p := perform acts module_load).
  unfold getRegistry. simpl.
  set (own := fresh (dom (heap p))).
  assert (Hlive : is_Some (heap p !! registryInstance p)).
  { unfold p. rewrite perform_registryInstance.
    apply perform_keeps_live, module_load_live. }
  assert (Hne : own ≠ registryInstance p).
  { intros Heq. apply elem_of_dom in Hlive. rewrite <- Heq in Hlive.
    exact (is_fresh (dom (heap p)) Hlive). }
  split; [assumption |].
  split; [apply lookup_insert_eq |].
  split; [apply lookup_insert_ne; assumption |].
  split.
  - rewrite lookup_insert_eq. simpl.
    rewrite !lookup_insert_ne by assumption. reflexivity.
  - rewrite lookup_insert_ne by assumption.
    destruct Hlive as [this Hthis]. rewrite Hthis. simpl.
    rewrite lookup_insert_ne by congruence. apply lookup_insert_eq.
Qed.
